(** * The rule-dispatch and diagnostic-aggregation engine ([runLinter])

    A shallow embedding of [runLinter] and [functionsMap] (the linter module
    of the repository) together with the properties of the engine stated by
    the specification, followed by the utilities of [utils.ts]
    ([convertMarkdownToPlainText], [fetchRepoMap], [fetchSpecFromGitea]) and
    properties read off their code.

    The engine is dynamically typed: the parsed document, the rule selection,
    the values returned or thrown by check routines and the diagnostics are
    all JavaScript values.  They are modelled by [JValue], the plain data a
    YAML/JSON loader produces, extended with [Error] instances (what [throw]
    usually carries) and primitive wrapper objects (what [Object(prim)]
    returns).  Values that carry behaviour of their own (accessors, proxies,
    symbols, user-defined [toString]) are outside [JValue]. *)

From Stdlib Require Import String Ascii List ZArith Lia Bool DecimalString.
Import ListNotations.
Open Scope string_scope.

(** ** JavaScript values *)

#[warnings="-register-all"]
Inductive JValue : Type :=
| JUndefined
| JNull
| JBool (b : bool)
| JNum (n : Z)
| JStr (s : string)
| JArr (elems : list JValue)
| JObj (fields : list (string * JValue))
| JErr (name message : string)
| JWrapper (prim : JValue).

(** Numbers are IEEE doubles in the source.  The engine creates only [0] and
    [content.length], and otherwise only tests numbers for truthiness and
    converts them to property keys or text, so the model keeps the integers. *)

Definition dquote : string := String "034"%char EmptyString.

(** [Error.prototype.toString]. *)
Definition errorToString (name message : string) : string :=
  match name, message with
  | EmptyString, _ => message
  | _, EmptyString => name
  | _, _ => name ++ ": " ++ message
  end.

(** [ToString] (also [String(v)] and [ToPropertyKey], which coincide on
    values without symbols).  An array is joined with commas, [null] and
    [undefined] elements giving the empty text. *)
Fixpoint toStr (v : JValue) : string :=
  match v with
  | JUndefined => "undefined"
  | JNull => "null"
  | JBool true => "true"
  | JBool false => "false"
  | JNum n => NilZero.string_of_int (Z.to_int n)
  | JStr s => s
  | JArr l =>
      (fix join (l : list JValue) : string :=
         match l with
         | [] => EmptyString
         | x :: rest =>
             let sx := match x with
                       | JUndefined | JNull => EmptyString
                       | _ => toStr x
                       end in
             match rest with
             | [] => sx
             | _ :: _ => sx ++ "," ++ join rest
             end
         end) l
  | JObj _ => "[object Object]"
  | JErr name message => errorToString name message
  | JWrapper p => toStr p
  end.

(** [ToBoolean]. *)
Definition truthy (v : JValue) : bool :=
  match v with
  | JUndefined | JNull => false
  | JBool b => b
  | JNum n => negb (n =? 0)%Z
  | JStr EmptyString => false
  | JStr _ => true
  | JArr _ | JObj _ | JErr _ _ | JWrapper _ => true
  end.

Definition isNullish (v : JValue) : bool :=
  match v with
  | JUndefined | JNull => true
  | _ => false
  end.

(** [Array.isArray]. *)
Definition isArray (v : JValue) : bool :=
  match v with
  | JArr _ => true
  | _ => false
  end.

(** [typeof v === 'object' && v !== null], the test [Type(v) is Object] of
    the language specification. *)
Definition isObject (v : JValue) : bool :=
  match v with
  | JArr _ | JObj _ | JErr _ _ | JWrapper _ => true
  | _ => false
  end.

Definition elements (v : JValue) : list JValue :=
  match v with
  | JArr l => l
  | _ => []
  end.

(** The property names the engine reads from values.  None of them is
    defined on [Object.prototype], [Array.prototype], [String.prototype],
    [Number.prototype] or [Boolean.prototype], so reading one yields the own
    property of an object literal, the message of an [Error], or
    [undefined]. *)
Inductive PropName := p_info | p_title | p_call | p_function | p_message.

Definition propKey (p : PropName) : string :=
  match p with
  | p_info => "info"
  | p_title => "title"
  | p_call => "call"
  | p_function => "function"
  | p_message => "message"
  end.

Fixpoint ownProperty (fields : list (string * JValue)) (k : string) : JValue :=
  match fields with
  | [] => JUndefined
  | (k', v) :: rest => if String.eqb k' k then v else ownProperty rest k
  end.

(** [v[p]] for a value [v] that is neither [null] nor [undefined]. *)
Definition readProp (v : JValue) (p : PropName) : JValue :=
  match v with
  | JObj fields => ownProperty fields (propKey p)
  | JErr _ message =>
      match p with
      | p_message => JStr message
      | _ => JUndefined
      end
  | _ => JUndefined
  end.

(** ** Completions, and the state of one invocation *)

Inductive Completion (A : Type) : Type :=
| Val (a : A)
| Exn (e : JValue).
Arguments Val {A} a.
Arguments Exn {A} e.

(** A check routine takes the parsed document, the raw text and its rule
    descriptor.  Its completion is what [await ruleFunc(spec, content, rule)]
    settles to: [Val v] when the call returns [v] or a promise fulfilled with
    [v], [Exn e] when it throws [e] or returns a promise rejected with [e]. *)
Definition CheckFn : Type := JValue -> string -> JValue -> Completion JValue.

(** One invocation of a member of [functionsMap]. *)
Record Call : Type := mkCall {
  callee : string;
  call_spec : JValue;
  call_content : string;
  call_rule : JValue
}.

(** The two local variables of [runLinter], and the invocations made so
    far. *)
Record State : Type := mkState {
  var_diagnostics : list JValue;
  var_specTitle : JValue;
  trace : list Call
}.

Definition M (A : Type) : Type := State -> State * Completion A.

Definition ret {A} (a : A) : M A := fun s => (s, Val a).

Definition throw {A} (e : JValue) : M A := fun s => (s, Exn e).

Definition bind {A B} (m : M A) (k : A -> M B) : M B :=
  fun s =>
    match m s with
    | (s', Val a) => k a s'
    | (s', Exn e) => (s', Exn e)
    end.

(** [try { body } catch (e) { handler }]: the state reached when [body]
    throws is the one the handler starts from. *)
Definition try_catch {A} (body : M A) (handler : JValue -> M A) : M A :=
  fun s =>
    match body s with
    | (s', Val a) => (s', Val a)
    | (s', Exn e) => handler e s'
    end.

Declare Scope js_scope.
Delimit Scope js_scope with js.
Notation "x <- m ;; k" := (bind m (fun x => k))
  (at level 61, m at next level, right associativity) : js_scope.
Notation "m ;;; k" := (bind m (fun _ => k))
  (at level 61, right associativity) : js_scope.
Open Scope js_scope.

Definition lift {A} (c : Completion A) : M A := fun s => (s, c).

Definition set_diagnostics (d : list JValue) : M unit :=
  fun s => (mkState d (var_specTitle s) (trace s), Val tt).

Definition push_diagnostic (d : JValue) : M unit :=
  fun s => (mkState (var_diagnostics s ++ [d]) (var_specTitle s) (trace s), Val tt).

Definition set_specTitle (t : JValue) : M unit :=
  fun s => (mkState (var_diagnostics s) t (trace s), Val tt).

Definition record_call (c : Call) : M unit :=
  fun s => (mkState (var_diagnostics s) (var_specTitle s) (trace s ++ [c]), Val tt).

(** ** The registry and what a lookup in it finds *)

(** The fourteen check routines imported from [@/functions/*]. They are
    opaque to the engine. *)
Record Functions : Type := mkFunctions {
  checkHttpsServers : CheckFn;
  checkParamElementPresence : CheckFn;
  checkElementSensitiveData : CheckFn;
  checkAllowedMethods : CheckFn;
  checkOASSpec : CheckFn;
  checkOASVersion : CheckFn;
  checkCRUD : CheckFn;
  checkSuccessResponse : CheckFn;
  checkGetIdempotency : CheckFn;
  checkGetReturnObject : CheckFn;
  checkParamElementAbsence : CheckFn;
  checkRequestEncapsulation : CheckFn;
  checkResponseEncapsulation : CheckFn;
  checkCompatibility : CheckFn
}.

Record RunResult : Type := mkRunResult {
  diagnostics : list JValue;
  specTitle : JValue
}.

Fixpoint assoc {A} (l : list (string * A)) (k : string) : option A :=
  match l with
  | [] => None
  | (k', a) :: rest => if String.eqb k' k then Some a else assoc rest k
  end.

Definition isSome {A} (o : option A) : bool :=
  match o with
  | Some _ => true
  | None => false
  end.

(** ** A concrete environment, used to exercise the statements *)

(** A loader that knows a few texts, with what js-yaml answers on them; any
    other text is taken as a plain scalar. *)
Definition sample_yaml_load (content : string) : JValue + string :=
  if content =? EmptyString then inl JUndefined
  else if content =? "info: {title: Pets}" then
    inl (JObj [("info", JObj [("title", JStr "Pets")])])
  else if content =? "info: {title: 42}" then
    inl (JObj [("info", JObj [("title", JNum 42)])])
  else if content =? "- 1" then inl (JArr [JNum 1])
  else if content =? "{" then
    inr "unexpected end of the stream within a flow collection"
  else inl (JStr content).

Definition sample_diagnostic (start stop : Z) (source : string) : JValue :=
  JObj [ ("from", JNum start);
         ("to", JNum stop);
         ("severity", JStr "warning");
         ("message", JStr "finding");
         ("source", JStr source) ].

Definition quiet : CheckFn := fun _ _ _ => Val (JArr []).

(** One routine reports two findings, one throws, one returns something
    that is not an array, one reports offsets in the wrong order. *)
Definition sample_fns : Functions :=
  {| checkHttpsServers := fun _ _ _ =>
       Val (JArr [sample_diagnostic 0 2 "checkHttpsServers";
                  sample_diagnostic 1 3 "checkHttpsServers"]);
     checkParamElementPresence := quiet;
     checkElementSensitiveData := quiet;
     checkAllowedMethods := quiet;
     checkOASSpec := fun _ _ _ => Val (JArr [sample_diagnostic 7 3 "checkOASSpec"]);
     checkOASVersion := fun _ _ _ => Val JUndefined;
     checkCRUD := fun _ _ _ => Exn (JErr "Error" "boom");
     checkSuccessResponse := quiet;
     checkGetIdempotency := quiet;
     checkGetReturnObject := quiet;
     checkParamElementAbsence := quiet;
     checkRequestEncapsulation := quiet;
     checkResponseEncapsulation := quiet;
     checkCompatibility := fun _ _ _ =>
       Val (JArr [sample_diagnostic 0 1 "checkCompatibility"]) |}.

Definition sample_typeErrorText (operation : string) : string :=
  "Cannot convert undefined or null to object".

(** What [sample_yaml_load] answers on ["info: {title: Pets}"]. *)
Definition pets : JValue := JObj [("info", JObj [("title", JStr "Pets")])].

(** [{ call: { function: name } }] *)
Definition descriptor (name : string) : JValue :=
  JObj [("call", JObj [("function", JStr name)])].

(** * The utilities ([utils.ts])

    Text is a sequence of code units; the model keeps the code units below
    256, one [ascii] each. *)

(** ** Regular-expression replacement *)

(** [\s], which is also what [trim] removes: tab, line feed, vertical tab,
    form feed, carriage return, space and no-break space. *)
Definition isWhiteSpace (c : ascii) : bool :=
  let n := nat_of_ascii c in
  ((9 <=? n) && (n <=? 13) || (n =? 32) || (n =? 160))%nat.

(** The line terminators after which [^] matches under the [m] flag. *)
Definition isLineTerminator (c : ascii) : bool :=
  let n := nat_of_ascii c in
  ((n =? 10) || (n =? 13))%nat.

(** [[>*_~\-]] *)
Definition isMarker (c : ascii) : bool :=
  (c =? ">")%char || (c =? "*")%char || (c =? "_")%char
  || (c =? "~")%char || (c =? "-")%char.

Definition isHash (c : ascii) : bool := (c =? "#")%char.

(** [s.replace(re, ...)] for a global regular expression [re] that never
    matches the empty string.  [matchAt prev s] is [Some (n, r)] when [re]
    matches at the start of [s], the code unit before it being [prev]: the
    match is [n >= 1] code units long and is replaced by [r].  The scan goes
    left to right and resumes after each match; [skip] counts the code units
    of the current match still to be passed over. *)
Fixpoint replaceAll (matchAt : option ascii -> string -> option (nat * string))
         (skip : nat) (prev : option ascii) (s : string) : string :=
  match s with
  | EmptyString => EmptyString
  | String c rest =>
      match skip with
      | S k => replaceAll matchAt k (Some c) rest
      | O =>
          match matchAt prev s with
          | Some (n, r) => r ++ replaceAll matchAt (Nat.pred n) (Some c) rest
          | None => String c (replaceAll matchAt 0 (Some c) rest)
          end
      end
  end.

Definition replace_g (matchAt : option ascii -> string -> option (nat * string))
           (s : string) : string :=
  replaceAll matchAt 0 None s.

(** The index of the first [c] in [s]. *)
Fixpoint indexOfChar (c : ascii) (s : string) : option nat :=
  match s with
  | EmptyString => None
  | String c' rest =>
      if (c' =? c)%char then Some 0 else option_map S (indexOfChar c rest)
  end.

(** The index of the first occurrence of [pat] in [s]. *)
Fixpoint indexOfString (pat s : string) : option nat :=
  if prefix pat s then Some 0
  else match s with
       | EmptyString => None
       | String _ rest => option_map S (indexOfString pat rest)
       end.

Fixpoint dropChars (n : nat) (s : string) : string :=
  match n, s with
  | S k, String _ rest => dropChars k rest
  | _, _ => s
  end.

Fixpoint takeChars (n : nat) (s : string) : string :=
  match n, s with
  | S k, String c rest => String c (takeChars k rest)
  | _, _ => EmptyString
  end.

(** The length of the longest prefix of [s] made of code units in [p]. *)
Fixpoint runLength (p : ascii -> bool) (s : string) : nat :=
  match s with
  | String c rest => if p c then S (runLength p rest) else 0
  | EmptyString => 0
  end.

(** A literal pattern, such as [/&amp;/]. *)
Definition matchLiteral (pat rep : string) (_ : option ascii) (s : string)
  : option (nat * string) :=
  if prefix pat s then Some (String.length pat, rep) else None.

(** [/[...]+/]: the longest run of code units of the class [p]. *)
Definition matchRun (p : ascii -> bool) (rep : string) (_ : option ascii)
           (s : string) : option (nat * string) :=
  match runLength p s with
  | O => None
  | n => Some (n, rep)
  end.

(** [/o[^c]*c/]: the code unit [o], then everything up to the first [c]. *)
Definition matchDelimited (o c : ascii) (rep : string) (_ : option ascii)
           (s : string) : option (nat * string) :=
  match s with
  | String o' rest =>
      if (o' =? o)%char then
        match indexOfChar c rest with
        | Some i => Some (i + 2, rep)
        | None => None
        end
      else None
  | EmptyString => None
  end.

(** [/<[^>]*>/] *)
Definition matchTag : option ascii -> string -> option (nat * string) :=
  matchDelimited "<" ">" EmptyString.

(** [/`[^`]*`/] *)
Definition matchInlineCode : option ascii -> string -> option (nat * string) :=
  matchDelimited "`" "`" " ".

(** [/```[\s\S]*?```/]: the opening fence, then everything up to the first
    closing fence after it. *)
Definition matchFence (_ : option ascii) (s : string) : option (nat * string) :=
  if prefix "```" s then
    match indexOfString "```" (dropChars 3 s) with
    | Some i => Some (i + 6, " ")
    | None => None
    end
  else None.

(** The link pattern at the start of [s]: an opening bracket, a group of
    code units other than the closing bracket, the closing bracket, an
    opening parenthesis, one or more code units other than the closing
    parenthesis, the closing parenthesis.  The result is the length of the
    match and the text of the group. *)
Definition matchBracketed (s : string) : option (nat * string) :=
  match s with
  | String "[" r1 =>
      match indexOfChar "]" r1 with
      | Some i =>
          match dropChars (S i) r1 with
          | String "(" r2 =>
              match indexOfChar ")" r2 with
              | Some (S j) => Some (i + S j + 4, takeChars i r1)
              | _ => None
              end
          | _ => None
          end
      | None => None
      end
  | _ => None
  end.

(** An exclamation mark followed by the link pattern, replaced by a
    space. *)
Definition matchImage (_ : option ascii) (s : string) : option (nat * string) :=
  match s with
  | String "!" rest =>
      match matchBracketed rest with
      | Some (n, _) => Some (S n, " ")
      | None => None
      end
  | _ => None
  end.

(** The link pattern, replaced by ["$1"], the text of its group. *)
Definition matchLink (_ : option ascii) (s : string) : option (nat * string) :=
  matchBracketed s.

(** [/^\s{0,3}#{1,6}\s+/m].  The code unit after the leading white space
    must be [#], so that white space is the whole run and has at most three
    code units; the code unit after the hashes must be white space, so the
    hashes are the whole run and number one to six. *)
Definition matchHeader (prev : option ascii) (s : string) : option (nat * string) :=
  let atLineStart := match prev with
                     | None => true
                     | Some c => isLineTerminator c
                     end in
  let w := runLength isWhiteSpace s in
  let h := runLength isHash (dropChars w s) in
  let w2 := runLength isWhiteSpace (dropChars h (dropChars w s)) in
  if (atLineStart && (w <=? 3) && (1 <=? h) && (h <=? 6) && (1 <=? w2))%nat
  then Some (w + h + w2, EmptyString)
  else None.

(** [s.replace(/\s+/g, " ")] *)
Definition collapseWhiteSpace (s : string) : string :=
  replace_g (matchRun isWhiteSpace " ") s.

Fixpoint trimStart (s : string) : string :=
  match s with
  | String c rest => if isWhiteSpace c then trimStart rest else s
  | EmptyString => EmptyString
  end.

Fixpoint trimEnd (s : string) : string :=
  match s with
  | EmptyString => EmptyString
  | String c rest =>
      match trimEnd rest with
      | EmptyString => if isWhiteSpace c then EmptyString else String c EmptyString
      | rest' => String c rest'
      end
  end.

(** [s.trim()] *)
Definition trim (s : string) : string := trimEnd (trimStart s).

(** ** Predicates on text *)

Fixpoint allChars (p : ascii -> bool) (s : string) : bool :=
  match s with
  | EmptyString => true
  | String c rest => p c && allChars p rest
  end.

Definition startsWithSpace (s : string) : bool :=
  match s with
  | String c _ => isWhiteSpace c
  | EmptyString => false
  end.

Fixpoint endsWithSpace (s : string) : bool :=
  match s with
  | EmptyString => false
  | String c EmptyString => isWhiteSpace c
  | String _ rest => endsWithSpace rest
  end.

(** Every white-space code unit is a space and is not followed by white
    space. *)
Fixpoint singleSpaced (s : string) : bool :=
  match s with
  | EmptyString => true
  | String c rest =>
      (if isWhiteSpace c then (c =? " ")%char && negb (startsWithSpace rest)
       else true)
      && singleSpaced rest
  end.

(** No [<] has a [>] somewhere after it: the text holds no tag. *)
Fixpoint noTag (s : string) : bool :=
  match s with
  | EmptyString => true
  | String c rest =>
      (if (c =? "<")%char then allChars (fun c' => negb (c' =? ">")%char) rest
       else true)
      && noTag rest
  end.

(** Words separated by single spaces, with no white space at either end. *)
Definition normalized (s : string) : bool :=
  singleSpaced s && negb (startsWithSpace s) && negb (endsWithSpace s).

(** ** What the utilities call *)

(** What [marked(markdown)] returns: the HTML text, or a promise when the
    library is configured as asynchronous. *)
Inductive MarkedOutput : Type :=
| HtmlText (html : string)
| HtmlPromise.

(** The DOM, as far as it is used: the [textContent] and the [innerText] of
    a detached [div] whose [innerHTML] has been set to the argument.  Both
    are empty when [innerHTML] has not been set. *)
Record Dom : Type := mkDom {
  textContent : string -> string;
  innerText : string -> string
}.

(** What [await fetch(url)] yields: [ok], and how [response.json()] and
    [response.text()] settle. *)
Record Response : Type := mkResponse {
  ok : bool;
  json : Completion JValue;
  text : Completion string
}.

(** The property names that [utils.ts] reads from values; none of them is
    defined on a built-in prototype. *)
Inductive FieldName := f_services | f_info | f_title | f_error | f_yaml.

Definition fieldKey (f : FieldName) : string :=
  match f with
  | f_services => "services"
  | f_info => "info"
  | f_title => "title"
  | f_error => "error"
  | f_yaml => "yaml"
  end.

(** [v[f]] for a value [v] that is neither [null] nor [undefined]. *)
Definition readField (v : JValue) (f : FieldName) : JValue :=
  match v with
  | JObj fields => ownProperty fields (fieldKey f)
  | _ => JUndefined
  end.

Definition andThen {A B} (c : Completion A) (k : A -> Completion B)
  : Completion B :=
  match c with
  | Val a => k a
  | Exn e => Exn e
  end.

Notation "x <~ c ;; k" := (andThen c (fun x => k))
  (at level 61, c at next level, right associativity) : js_scope.

(** The decimal text of the indices [0 .. n-1]. *)
Definition indices (n : nat) : list string :=
  map (fun i => NilZero.string_of_uint (Nat.to_uint i)) (seq 0 n).

(** [keys.includes(x)]: a key is a string, and only an equal string is the
    same value. *)
Definition includes (keys : list string) (x : JValue) : bool :=
  match x with
  | JStr t => existsb (String.eqb t) keys
  | _ => false
  end.

(** [l.find(cb)] *)
Fixpoint find (cb : JValue -> Completion bool) (l : list JValue)
  : Completion JValue :=
  match l with
  | [] => Val JUndefined
  | x :: rest =>
      match cb x with
      | Exn e => Exn e
      | Val true => Val x
      | Val false => find cb rest
      end
  end.

(** [a || b] on strings. *)
Definition orElse (a b : string) : string :=
  match a with
  | EmptyString => b
  | _ => a
  end.

(** What [console.error] has been called with. *)
Definition Console : Type := list (string * JValue).

Section Utils.

Variable marked : string -> Completion MarkedOutput.

(** [None] when [typeof document === "undefined"]. *)
Variable document : option Dom.

Variable fetch : string -> Completion Response.

(** [yaml.load(text)] of js-yaml, as for the engine. *)
Variable yaml_load : string -> JValue + string.

Variable typeErrorText : string -> string.

(** [v.f] *)
Definition member (v : JValue) (f : FieldName) : Completion JValue :=
  if isNullish v then Exn (JErr "TypeError" (typeErrorText (fieldKey f)))
  else Val (readField v f).

(** [Object.keys(v)]: the own enumerable keys, of which only membership is
    used. *)
Definition objectKeys (v : JValue) : Completion (list string) :=
  match v with
  | JUndefined | JNull => Exn (JErr "TypeError" (typeErrorText "keys"))
  | JObj fields => Val (map fst fields)
  | JArr l => Val (indices (List.length l))
  | JStr s | JWrapper (JStr s) => Val (indices (String.length s))
  | _ => Val []
  end.

(** The server path: tags stripped, a few entities decoded. *)
Definition stripHtml (html : string) : string :=
  let stripped := replace_g matchTag html in
  let s1 := replace_g (matchLiteral "&nbsp;" " ") stripped in
  let s2 := replace_g (matchLiteral "&amp;" "&") s1 in
  let s3 := replace_g (matchLiteral "&lt;" "<") s2 in
  let s4 := replace_g (matchLiteral "&gt;" ">") s3 in
  let s5 := replace_g (matchLiteral "&quot;" dquote) s4 in
  let s6 := replace_g (matchLiteral "&#39;" "'") s5 in
  trim (collapseWhiteSpace s6).

(** The [catch] path: markdown stripped without the library. *)
Definition stripMarkdown (markdown : string) : string :=
  let s1 := replace_g matchFence markdown in
  let s2 := replace_g matchInlineCode s1 in
  let s3 := replace_g matchImage s2 in
  let s4 := replace_g matchLink s3 in
  let s5 := replace_g matchHeader s4 in
  let s6 := replace_g (matchRun isMarker " ") s5 in
  trim (collapseWhiteSpace s6).

(** [markdown] is [None] for [null] and [undefined]. *)
Definition convertMarkdownToPlainText (markdown : option string) : string :=
  let md := match markdown with
            | Some s => s
            | None => EmptyString
            end in
  match marked md with
  | Val html =>
      match document with
      | None =>
          stripHtml (match html with
                     | HtmlText h => h
                     | HtmlPromise => "[object Promise]"
                     end)
      | Some dom =>
          let text := match html with
                      | HtmlText h =>
                          orElse (textContent dom h)
                                 (orElse (innerText dom h) EmptyString)
                      | HtmlPromise => EmptyString
                      end in
          trim (collapseWhiteSpace text)
      end
  | Exn _ => stripMarkdown md
  end.

Definition loadYaml (txt : string) : Completion JValue :=
  match yaml_load txt with
  | inl doc => Val doc
  | inr m => Exn (JErr "YAMLException" m)
  end.

(** The callback of [parsed.services.find]. *)
Definition entryHasTitle (spec : JValue) (entry : JValue) : Completion bool :=
  keys <~ objectKeys entry ;;
  info <~ member spec f_info ;;
  title <~ member info f_title ;;
  Val (includes keys title).

(** The value the promise of [fetchRepoMap] is fulfilled with, after what
    has gone to the console. *)
Definition fetchRepoMap (spec : JValue) : Console * JValue :=
  let body : Completion JValue :=
    response <~ fetch "/gitea/repositories.yaml" ;;
    txt <~ text response ;;
    parsed <~ loadYaml txt ;;
    services <~ member parsed f_services ;;
    serviceEntry <~ match services with
                    | JArr l => find (entryHasTitle spec) l
                    | _ => Exn (JErr "TypeError" (typeErrorText "find"))
                    end ;;
    Val (if isNullish serviceEntry then JNull else serviceEntry) in
  match body with
  | Val v => ([], v)
  | Exn e => ([("Failed to load repositories.yaml:", e)], JNull)
  end.

(** The value the promise of [fetchSpecFromGitea] is fulfilled with, after
    what has gone to the console. *)
Definition fetchSpecFromGitea (repo path : string) : Console * JValue :=
  let body : Completion JValue :=
    response <~ fetch ("/api/gitea?repo=" ++ repo ++ "&path=" ++ path) ;;
    data <~ json response ;;
    if negb (ok response) then
      err <~ member data f_error ;;
      Exn (JErr "Error" (toStr (if truthy err then err
                                else JStr "Failed to fetch YAML")))
    else member data f_yaml in
  match body with
  | Val v => ([], v)
  | Exn error => ([("Failed to fetch spec YAML from gitea portal:", error)], JNull)
  end.

End Utils.

(** ** A concrete environment for the utilities *)

Definition newline : string := String "010"%char EmptyString.

(** A stand-in for the library that wraps the text in a paragraph, and one
    that fails. *)
Definition sample_marked (md : string) : Completion MarkedOutput :=
  Val (HtmlText ("<p>" ++ md ++ "</p>" ++ newline)).

Definition failing_marked (md : string) : Completion MarkedOutput :=
  Exn (JErr "TypeError" "marked is not a function").

Definition sample_repositories : string :=
  "services: [{Books: books-repo}, {Pets: pets-repo, Petstore: pets-repo}]".

(** A server that knows the repository map and one specification. *)
Definition sample_fetch (url : string) : Completion Response :=
  if url =? "/gitea/repositories.yaml" then
    Val {| ok := true;
           json := Exn (JErr "SyntaxError" "Unexpected token s in JSON");
           text := Val sample_repositories |}
  else if url =? "/api/gitea?repo=pets-repo&path=openapi.yaml" then
    Val {| ok := true;
           json := Val (JObj [("yaml", JStr "openapi: 3.0.0")]);
           text := Val "{}" |}
  else
    Val {| ok := false;
           json := Val (JObj [("error", JStr "File not found")]);
           text := Val "{}" |}.

Definition offline_fetch (url : string) : Completion Response :=
  Exn (JErr "TypeError" "Failed to fetch").

Definition sample_repo_yaml_load (txt : string) : JValue + string :=
  if txt =? sample_repositories then
    inl (JObj [("services",
                JArr [JObj [("Books", JStr "books-repo")];
                      JObj [("Pets", JStr "pets-repo");
                            ("Petstore", JStr "pets-repo")]])])
  else inl (JStr txt).

Definition empty_repo_yaml_load (txt : string) : JValue + string :=
  inl (JObj [("services", JArr [])]).

Section Linter.

(** [yaml.load(content, { json: true })] of js-yaml: [inl doc] when the
    text loads to [doc], [inr m] when the loader throws its
    [YAMLException], an [Error] whose message is [m]. *)
Variable yaml_load : string -> JValue + string.

Variable fns : Functions.

(** The text of the [TypeError] the JavaScript engine raises for the
    operation named by the argument; it differs between engines. *)
Variable typeErrorText : string -> string.

Definition typeError (operation : string) : JValue :=
  JErr "TypeError" (typeErrorText operation).

Definition load (content : string) : M JValue :=
  match yaml_load content with
  | inl doc => ret doc
  | inr m => throw (JErr "YAMLException" m)
  end.

(** [functionsMap] is an object literal, so besides its fourteen own
    properties a lookup [functionsMap[key]] finds what the literal inherits
    from [Object.prototype].  The engine calls what it finds as
    [ruleFunc(spec, content, rule)], a plain call whose receiver is
    [undefined]. *)

(** [Object(value)]. *)
Definition Object_constructor : CheckFn :=
  fun value _ _ =>
    Val (if isNullish value then JObj []
         else if isObject value then value
         else JWrapper value).

(** [Object.prototype.toString] on the receiver [undefined]. *)
Definition Object_prototype_toString : CheckFn :=
  fun _ _ _ => Val (JStr "[object Undefined]").

(** The members that start with [ToObject(this value)], or reach it after
    a conversion of the first argument that cannot fail on [JValue]:
    they throw a [TypeError] on the receiver [undefined]. *)
Definition needs_receiver (name : string) : CheckFn :=
  fun _ _ _ => Exn (typeError name).

(** [Object.prototype.isPrototypeOf(V)] answers [false] for a primitive
    [V] before it looks at its receiver. *)
Definition Object_prototype_isPrototypeOf : CheckFn :=
  fun V _ _ =>
    if isObject V then Exn (typeError "isPrototypeOf") else Val (JBool false).

(** The function-valued members of [Object.prototype].  Its [__proto__]
    is an accessor: read through [functionsMap] it yields
    [Object.prototype] itself, whose [typeof] is ['object']. *)
Definition Object_prototype : list (string * CheckFn) :=
  [ ("constructor", Object_constructor);
    ("__defineGetter__", needs_receiver "__defineGetter__");
    ("__defineSetter__", needs_receiver "__defineSetter__");
    ("hasOwnProperty", needs_receiver "hasOwnProperty");
    ("__lookupGetter__", needs_receiver "__lookupGetter__");
    ("__lookupSetter__", needs_receiver "__lookupSetter__");
    ("isPrototypeOf", Object_prototype_isPrototypeOf);
    ("propertyIsEnumerable", needs_receiver "propertyIsEnumerable");
    ("toString", Object_prototype_toString);
    ("valueOf", needs_receiver "valueOf");
    ("toLocaleString", needs_receiver "toLocaleString") ].

Definition functionsMap : list (string * CheckFn) :=
  [ ("checkHttpsServers", checkHttpsServers fns);
    ("checkParamElementPresence", checkParamElementPresence fns);
    ("checkElementSensitiveData", checkElementSensitiveData fns);
    ("checkAllowedMethods", checkAllowedMethods fns);
    ("checkOASSpec", checkOASSpec fns);
    ("checkOASVersion", checkOASVersion fns);
    ("checkCRUD", checkCRUD fns);
    ("checkSuccessResponse", checkSuccessResponse fns);
    ("checkGetIdempotency", checkGetIdempotency fns);
    ("checkGetReturnObject", checkGetReturnObject fns);
    ("checkParamElementAbsence", checkParamElementAbsence fns);
    ("checkRequestEncapsulation", checkRequestEncapsulation fns);
    ("checkResponseEncapsulation", checkResponseEncapsulation fns);
    ("checkCompatibility", checkCompatibility fns) ].

(** [functionsMap[key]] when [typeof functionsMap[key] === 'function'],
    [None] otherwise. *)
Definition functionsMap_get (key : string) : option CheckFn :=
  match assoc functionsMap key with
  | Some f => Some f
  | None => assoc Object_prototype key
  end.

(** ** Property access *)

(** [v?.p] *)
Definition optChain (v : JValue) (p : PropName) : JValue :=
  if isNullish v then JUndefined else readProp v p.

(** [v.p] *)
Definition getProp (v : JValue) (p : PropName) : M JValue :=
  if isNullish v then throw (typeError (propKey p)) else ret (readProp v p).

(** ** [runLinter] *)

Definition textLength (content : string) : JValue :=
  JNum (Z.of_nat (String.length content)).

(** The callback of [selectedRules.filter]. *)
Definition runnable_test (rule : JValue) : M bool :=
  if truthy (optChain (optChain rule p_call) p_function) then
    c <- getProp rule p_call ;;
    f <- getProp c p_function ;;
    ret (isSome (functionsMap_get (toStr f)))
  else ret false.

Fixpoint filterM (test : JValue -> M bool) (l : list JValue) : M (list JValue) :=
  match l with
  | [] => ret []
  | x :: rest =>
      keep <- test x ;;
      rest' <- filterM test rest ;;
      ret (if keep then x :: rest' else rest')
  end.

(** [err?.message || String(err)] *)
Definition failureText (err : JValue) : JValue :=
  if truthy (optChain err p_message) then optChain err p_message
  else JStr (toStr err).

(** The diagnostic of the inner [catch]. *)
Definition ruleFailureDiagnostic (content : string) (funcName err : JValue) : JValue :=
  JObj [ ("from", JNum 0);
         ("to", textLength content);
         ("severity", JStr "error");
         ("message", JStr ("Rule " ++ dquote ++ toStr funcName ++ dquote
                           ++ " execution failed: " ++ toStr (failureText err)));
         ("source", funcName) ].

(** The diagnostic of the outer [catch]; [m] is [error.message]. *)
Definition parserDiagnostic (content : string) (m : JValue) : JValue :=
  JObj [ ("from", JNum 0);
         ("to", textLength content);
         ("severity", JStr "error");
         ("message", JStr ("Specification parsing error: " ++ toStr m));
         ("source", JStr "parser") ].

(** [ruleFunc(spec, content, rule)] followed by [await]. *)
Definition invoke (ruleFunc : option CheckFn) (key : string)
           (spec : JValue) (content : string) (rule : JValue) : M JValue :=
  match ruleFunc with
  | Some f => record_call (mkCall key spec content rule) ;;; lift (f spec content rule)
  | None => throw (typeError "call")
  end.

(** The [async (rule) => ...] closure mapped over the runnable rules. *)
Definition runRule (spec : JValue) (content : string) (rule : JValue)
  : M (list JValue) :=
  c <- getProp rule p_call ;;
  funcName <- getProp c p_function ;;
  let ruleFunc := functionsMap_get (toStr funcName) in
  try_catch
    (out <- invoke ruleFunc (toStr funcName) spec content rule ;;
     ret (if isArray out then elements out else []))
    (fun err => ret [ruleFailureDiagnostic content funcName err]).

(** [await Promise.all(l.map(f))]: [map] starts every closure, in list
    order, before anything is awaited, so every closure runs whatever the
    others do; the result is the list of their values, or a rejection if
    one of them rejects. *)
Fixpoint promiseAllMap {A} (f : JValue -> M A) (l : list JValue) : M (list A) :=
  match l with
  | [] => ret []
  | x :: rest =>
      fun s =>
        let (s1, cx) := f x s in
        let (s2, crest) := promiseAllMap f rest s1 in
        (s2, match cx, crest with
             | Val a, Val r => Val (a :: r)
             | Exn e, _ => Exn e
             | Val _, Exn e => Exn e
             end)
  end.

(** [return { diagnostics, specTitle }] *)
Definition currentResult : M RunResult :=
  fun s => (s, Val (mkRunResult (var_diagnostics s) (var_specTitle s))).

(** The [try] statement yields [Some r] when its block executes
    [return r], [None] when control falls through to the statement after
    it. *)
Definition runLinter_body (content : string) (selectedRules : JValue)
  : M RunResult :=
  r <- try_catch
         (spec <- load content ;;
          set_specTitle (optChain (optChain spec p_info) p_title) ;;;
          if negb (isArray selectedRules)
             || (List.length (elements selectedRules) =? 0)%nat
          then
            res <- currentResult ;;
            ret (Some res)
          else
            runnable <- filterM runnable_test (elements selectedRules) ;;
            results <- promiseAllMap (runRule spec content) runnable ;;
            set_diagnostics (concat results) ;;;
            ret None)
         (fun error =>
            m <- getProp error p_message ;;
            push_diagnostic (parserDiagnostic content m) ;;;
            ret None) ;;
  match r with
  | Some res => ret res
  | None => currentResult
  end.

Definition initialState : State := mkState [] JUndefined [].

(** The invocations made during the run, and how the promise returned by
    [runLinter] settles: [Val r] fulfilled with [r], [Exn e] rejected. *)
Definition runLinter (content : string) (selectedRules : JValue)
  : list Call * Completion RunResult :=
  let (s, c) := runLinter_body content selectedRules initialState in
  (trace s, c).

(** ** What the engine computes, stated without the state *)

(** [rule?.call?.function], the function identifier a descriptor
    declares. *)
Definition functionId (rule : JValue) : JValue :=
  optChain (optChain rule p_call) p_function.

(** The test of the filter: the descriptor is kept. *)
Definition resolves (rule : JValue) : bool :=
  truthy (functionId rule) && isSome (functionsMap_get (toStr (functionId rule))).

Definition resolvedRules (selectedRules : JValue) : list JValue :=
  filter resolves (elements selectedRules).

(** What a kept descriptor adds to the result. *)
Definition ruleOutput (spec : JValue) (content : string) (rule : JValue)
  : list JValue :=
  match functionsMap_get (toStr (functionId rule)) with
  | Some f =>
      match f spec content rule with
      | Val out => if isArray out then elements out else []
      | Exn err => [ruleFailureDiagnostic content (functionId rule) err]
      end
  | None => [ruleFailureDiagnostic content (functionId rule) (typeError "call")]
  end.

Definition callOf (spec : JValue) (content : string) (rule : JValue) : Call :=
  mkCall (toStr (functionId rule)) spec content rule.

(** The identifier is the name of one of the fourteen registered
    routines. *)
Definition registered (key : string) : bool := isSome (assoc functionsMap key).

(** [0 <= start <= end <= length(rawText)], for a diagnostic that carries
    numeric offsets. *)
Definition offsetsValid (content : string) (d : JValue) : bool :=
  match d with
  | JObj fields =>
      match ownProperty fields "from", ownProperty fields "to" with
      | JNum a, JNum b =>
          (0 <=? a)%Z && (a <=? b)%Z && (b <=? Z.of_nat (String.length content))%Z
      | _, _ => false
      end
  | _ => false
  end.


(** The state after the invocations [cs] have been recorded. *)
Definition logged (s : State) (cs : list Call) : State :=
  mkState (var_diagnostics s) (var_specTitle s) (trace s ++ cs).

(** ** The engine, step by step *)

Lemma truthy_not_nullish v : truthy v = true -> isNullish v = false.
Proof. destruct v; simpl; congruence. Qed.

Lemma optChain_defined v p :
  isNullish (optChain v p) = false -> isNullish v = false.
Proof.
  unfold optChain. destruct (isNullish v); [simpl; congruence | reflexivity].
Qed.

Lemma getProp_defined v p s :
  isNullish v = false -> getProp v p s = (s, Val (optChain v p)).
Proof.
  intros H. unfold getProp, optChain. rewrite H. reflexivity.
Qed.

Lemma functionId_truthy rule :
  truthy (functionId rule) = true ->
  isNullish rule = false /\ isNullish (optChain rule p_call) = false.
Proof.
  intros H. apply truthy_not_nullish in H.
  pose proof (optChain_defined _ _ H) as Hc.
  split; [exact (optChain_defined _ _ Hc) | exact Hc].
Qed.

Lemma runnable_test_spec rule s :
  runnable_test rule s = (s, Val (resolves rule)).
Proof.
  unfold runnable_test, resolves. fold (functionId rule).
  destruct (truthy (functionId rule)) eqn:Ht; [| reflexivity].
  destruct (functionId_truthy _ Ht) as [Hr Hc].
  unfold bind. rewrite (getProp_defined _ _ _ Hr), (getProp_defined _ _ _ Hc).
  reflexivity.
Qed.

Lemma filterM_runnable l s :
  filterM runnable_test l s = (s, Val (filter resolves l)).
Proof.
  revert s. induction l as [| x l IH]; intros s; simpl; [reflexivity |].
  unfold bind. rewrite runnable_test_spec, IH. reflexivity.
Qed.

Lemma logged_nil s : logged s [] = s.
Proof. destruct s. unfold logged. simpl. rewrite app_nil_r. reflexivity. Qed.

Lemma logged_app s cs cs' : logged (logged s cs) cs' = logged s (cs ++ cs').
Proof. unfold logged. simpl. rewrite app_assoc. reflexivity. Qed.

Lemma resolves_get rule :
  resolves rule = true ->
  truthy (functionId rule) = true /\
  exists f, functionsMap_get (toStr (functionId rule)) = Some f.
Proof.
  unfold resolves. intros H. apply andb_true_iff in H. destruct H as [Ht Hs].
  split; [exact Ht |].
  destruct (functionsMap_get (toStr (functionId rule))) as [f |];
    [exists f; reflexivity | discriminate].
Qed.

Lemma runRule_spec spec content rule s :
  resolves rule = true ->
  runRule spec content rule s =
  (logged s [callOf spec content rule], Val (ruleOutput spec content rule)).
Proof.
  intros H. destruct (resolves_get _ H) as [Ht [f Hf]].
  destruct (functionId_truthy _ Ht) as [Hr Hc].
  unfold runRule, ruleOutput, callOf, bind.
  rewrite (getProp_defined _ _ _ Hr), (getProp_defined _ _ _ Hc).
  fold (functionId rule). rewrite Hf.
  unfold try_catch, invoke, bind, record_call, lift, ret, logged.
  destruct (f spec content rule) as [out | err]; reflexivity.
Qed.

Lemma promiseAll_runRule spec content l s :
  Forall (fun rule => resolves rule = true) l ->
  promiseAllMap (runRule spec content) l s =
  (logged s (map (callOf spec content) l), Val (map (ruleOutput spec content) l)).
Proof.
  intros H. revert s. induction H as [| x l Hx Hl IH]; intros s; simpl.
  - rewrite logged_nil. reflexivity.
  - rewrite (runRule_spec _ _ _ _ Hx), IH, logged_app. reflexivity.
Qed.

Lemma resolvedRules_resolve selectedRules :
  Forall (fun rule => resolves rule = true) (resolvedRules selectedRules).
Proof.
  unfold resolvedRules. apply Forall_forall. intros x Hx.
  apply filter_In in Hx. tauto.
Qed.

Lemma resolvedRules_no_selection selectedRules :
  negb (isArray selectedRules)
  || (List.length (elements selectedRules) =? 0)%nat = true ->
  resolvedRules selectedRules = [].
Proof.
  unfold resolvedRules. destruct selectedRules as [| | | | | l | | |];
    try reflexivity.
  simpl. destruct l; [reflexivity | discriminate].
Qed.

(** The whole run in closed form. *)
Lemma runLinter_spec content selectedRules :
  runLinter content selectedRules =
  match yaml_load content with
  | inr m => ([], Val (mkRunResult [parserDiagnostic content (JStr m)] JUndefined))
  | inl spec =>
      (map (callOf spec content) (resolvedRules selectedRules),
       Val (mkRunResult
              (concat (map (ruleOutput spec content) (resolvedRules selectedRules)))
              (optChain (optChain spec p_info) p_title)))
  end.
Proof.
  unfold runLinter, runLinter_body, bind, try_catch, load.
  destruct (yaml_load content) as [spec | m]; simpl.
  - destruct (negb (isArray selectedRules)
              || (List.length (elements selectedRules) =? 0)%nat) eqn:Hsel.
    + rewrite (resolvedRules_no_selection _ Hsel). reflexivity.
    + rewrite filterM_runnable.
      fold (resolvedRules selectedRules).
      rewrite (promiseAll_runRule _ _ _ _ (resolvedRules_resolve selectedRules)).
      reflexivity.
  - reflexivity.
Qed.




Lemma synthesized_offsets content fields :
  ownProperty fields "from" = JNum 0 ->
  ownProperty fields "to" = textLength content ->
  offsetsValid content (JObj fields) = true.
Proof.
  intros Hf Ht. unfold offsetsValid. rewrite Hf, Ht. unfold textLength.
  rewrite !andb_true_iff, !Z.leb_le. lia.
Qed.

(** ** The properties of the specification *)


(** C2 (parse-failure short-circuit).  When the loader throws, the result
    holds exactly one diagnostic, with start 0, end [length content],
    severity error, source "parser" and a message that embeds the loader's
    text; there is no title, and no check routine has been invoked. *)
Theorem parse_failure_short_circuit
        (content : string) (selectedRules : JValue) (m : string) :
  yaml_load content = inr m ->
  runLinter content selectedRules =
  ([],
   Val {| diagnostics :=
            [JObj [ ("from", JNum 0);
                    ("to", JNum (Z.of_nat (String.length content)));
                    ("severity", JStr "error");
                    ("message", JStr ("Specification parsing error: " ++ m));
                    ("source", JStr "parser") ]];
          specTitle := JUndefined |}).
Proof.
  intros H. rewrite runLinter_spec, H. reflexivity.
Qed.



(** C5 (resolution filtering), evaluated on the identifier "valueOf".
    It names none of the registered routines, yet the lookup finds the
    member inherited from [Object.prototype]: the descriptor is kept, the
    member is invoked, it throws on its missing receiver, and the result
    holds one diagnostic whose source is "valueOf". *)
Theorem inherited_member_dispatched (content : string) (spec : JValue) :
  yaml_load content = inl spec ->
  registered "valueOf" = false
  /\ runLinter content (JArr [descriptor "valueOf"]) =
     ([mkCall "valueOf" spec content (descriptor "valueOf")],
      Val {| diagnostics :=
               [JObj [ ("from", JNum 0);
                       ("to", JNum (Z.of_nat (String.length content)));
                       ("severity", JStr "error");
                       ("message",
                        JStr ("Rule " ++ dquote ++ "valueOf" ++ dquote
                              ++ " execution failed: "
                              ++ toStr (failureText
                                          (JErr "TypeError"
                                                (typeErrorText "valueOf")))));
                       ("source", JStr "valueOf") ]];
             specTitle := optChain (optChain spec p_info) p_title |}).
Proof.
  intros Hload. split; [reflexivity |].
  rewrite runLinter_spec, Hload. reflexivity.
Qed.

(** C6 (offset validity), as the engine provides it.  A diagnostic of a Run
    Result is either synthesized by the engine, and then has start 0 and end
    [length content], so that [0 <= start <= end <= length content]; or it
    is an element of the array returned by the routine of a kept descriptor,
    handed on as it is. *)
Theorem diagnostic_offsets
        (content : string) (selectedRules : JValue)
        (calls : list Call) (result : RunResult) (d : JValue) :
  runLinter content selectedRules = (calls, Val result) ->
  In d (diagnostics result) ->
  (((exists m, d = parserDiagnostic content m)
    \/ (exists funcName err, d = ruleFailureDiagnostic content funcName err))
   /\ offsetsValid content d = true)
  \/ (exists spec rule f out,
         yaml_load content = inl spec
         /\ In rule (resolvedRules selectedRules)
         /\ functionsMap_get (toStr (functionId rule)) = Some f
         /\ f spec content rule = Val (JArr out)
         /\ In d out).
Proof.
  rewrite runLinter_spec. destruct (yaml_load content) as [spec | m] eqn:Hload.
  - intros Hrun Hd. injection Hrun as _ <-. simpl in Hd.
    apply in_concat in Hd. destruct Hd as [ds [Hds Hd]].
    apply in_map_iff in Hds. destruct Hds as [rule [<- Hrule]].
    unfold ruleOutput in Hd.
    destruct (functionsMap_get (toStr (functionId rule))) as [f |] eqn:Hf.
    + destruct (f spec content rule) as [out | err] eqn:Hout.
      * destruct out as [| | | | | l | | |]; simpl in Hd; try contradiction.
        right. exists spec, rule, f, l. auto.
      * destruct Hd as [<- | []]. left. split.
        -- right. eauto.
        -- apply synthesized_offsets; reflexivity.
    + destruct Hd as [<- | []]. left. split.
      * right. eauto.
      * apply synthesized_offsets; reflexivity.
  - intros Hrun Hd. injection Hrun as _ <-. simpl in Hd.
    destruct Hd as [<- | []]. left. split.
    + left. eauto.
    + apply synthesized_offsets; reflexivity.
Qed.

(** C7 (title extraction), evaluated on a document whose [info.title] is
    not a string.  The engine hands on whatever value the field holds: for
    a document [{ info: { title: t } }] the title of the result is [t]. *)
Theorem title_returned_unchecked
        (content : string) (selectedRules : JValue) (t : JValue) :
  yaml_load content = inl (JObj [("info", JObj [("title", t)])]) ->
  exists calls ds,
    runLinter content selectedRules =
    (calls, Val {| diagnostics := ds; specTitle := t |}).
Proof.
  intros Hload. rewrite runLinter_spec, Hload. simpl. eauto.
Qed.




(** An identifier found neither among the registered routines nor on
    [Object.prototype] does not resolve. *)
Lemma unknown_identifier_unresolved rule :
  functionsMap_get (toStr (functionId rule)) = None -> resolves rule = false.
Proof.
  intros H. unfold resolves. rewrite H. apply andb_false_r.
Qed.

(** ** Further properties of the engine *)



(** X1 (no selection).  When the text loads and [selectedRules] is not an
    array or is the empty array, the run returns no diagnostic and the
    title of the document, and invokes no routine. *)
Theorem no_selection_no_run
        (content : string) (spec : JValue) (selectedRules : JValue) :
  yaml_load content = inl spec ->
  isArray selectedRules = false \/ selectedRules = JArr [] ->
  runLinter content selectedRules =
  ([], Val {| diagnostics := [];
              specTitle := optChain (optChain spec p_info) p_title |}).
Proof.
  intros Hload Hsel. rewrite runLinter_spec, Hload.
  rewrite resolvedRules_no_selection; [reflexivity |].
  destruct Hsel as [H | ->]; [rewrite H |]; reflexivity.
Qed.





(** (Title.)  When the text loads, the title of the result is
    [spec?.info?.title] whatever the selection is and whatever the routines
    do: a rule that throws does not lose it. *)
Theorem title_independent_of_rules
        (content : string) (spec : JValue) (selectedRules : JValue) :
  yaml_load content = inl spec ->
  exists calls ds,
    runLinter content selectedRules =
    (calls, Val {| diagnostics := ds;
                   specTitle := optChain (optChain spec p_info) p_title |}).
Proof.
  intros Hload. rewrite runLinter_spec, Hload. eauto.
Qed.



(** X8 (text of a failure).  The text that the synthetic diagnostic embeds
    is the string conversion of the thrown value when that value is a
    primitive, the [message] of a thrown mapping when that message is
    truthy, and the name of a thrown [Error] whose message is empty. *)
Theorem failure_text_cases (err : JValue) :
  (isObject err = false -> toStr (failureText err) = toStr err)
  /\ (forall fields, err = JObj fields ->
                     truthy (ownProperty fields "message") = true ->
                     failureText err = ownProperty fields "message")
  /\ (forall name, err = JErr name EmptyString ->
                   toStr (failureText err) = name).
Proof.
  split; [| split].
  - destruct err; simpl; intros H; try discriminate; reflexivity.
  - intros fields -> H. unfold failureText, optChain.
    cbn [isNullish readProp propKey]. rewrite H. reflexivity.
  - intros name ->. destruct name; reflexivity.
Qed.

End Linter.

(** ** The statements at the sample environment *)

Local Abbreviation sample_run :=
  (runLinter sample_yaml_load sample_fns sample_typeErrorText).

Example lookup_registered :
  isSome (functionsMap_get sample_fns sample_typeErrorText "checkCRUD") = true.
Proof. reflexivity. Qed.

Example lookup_unknown :
  isSome (functionsMap_get sample_fns sample_typeErrorText "unknownRule") = false.
Proof. reflexivity. Qed.

Example lookup_inherited :
  isSome (functionsMap_get sample_fns sample_typeErrorText "toString") = true.
Proof. reflexivity. Qed.

Example lookup_proto :
  isSome (functionsMap_get sample_fns sample_typeErrorText "__proto__") = false.
Proof. reflexivity. Qed.

Example key_of_array : toStr (JArr [JStr "checkCRUD"]) = "checkCRUD".
Proof. reflexivity. Qed.

Example text_of_array :
  toStr (JArr [JNum (-5); JNull; JArr [JStr "a"; JUndefined]; JObj []])
  = "-5,,a,,[object Object]".
Proof. reflexivity. Qed.

Example run_without_selection :
  sample_run "info: {title: Pets}" (JStr "all")
  = ([], Val {| diagnostics := []; specTitle := JStr "Pets" |}).
Proof. reflexivity. Qed.

Example run_unknown_then_known :
  sample_run "info: {title: Pets}"
             (JArr [descriptor "unknownRule"; descriptor "checkCompatibility"])
  = ([mkCall "checkCompatibility" pets "info: {title: Pets}"
             (descriptor "checkCompatibility")],
     Val {| diagnostics := [sample_diagnostic 0 1 "checkCompatibility"];
            specTitle := JStr "Pets" |}).
Proof. reflexivity. Qed.

Lemma parse_failure_short_circuit_witness :
  sample_yaml_load "{"
  = inr "unexpected end of the stream within a flow collection"
  /\ sample_run "{" (JArr [descriptor "checkCRUD"])
     = ([],
        Val {| diagnostics :=
                 [JObj [ ("from", JNum 0);
                         ("to", JNum 1);
                         ("severity", JStr "error");
                         ("message",
                          JStr "Specification parsing error: unexpected end of the stream within a flow collection");
                         ("source", JStr "parser") ]];
               specTitle := JUndefined |}).
Proof.
  split; [reflexivity |].
  apply (parse_failure_short_circuit
           sample_yaml_load sample_fns sample_typeErrorText
           "{" (JArr [descriptor "checkCRUD"])
           "unexpected end of the stream within a flow collection").
  reflexivity.
Defined.



Lemma inherited_member_dispatched_witness :
  sample_yaml_load "info: {title: Pets}" = inl pets
  /\ sample_run "info: {title: Pets}" (JArr [descriptor "valueOf"])
     = ([mkCall "valueOf" pets "info: {title: Pets}" (descriptor "valueOf")],
        Val {| diagnostics :=
                 [JObj [ ("from", JNum 0);
                         ("to", JNum 19);
                         ("severity", JStr "error");
                         ("message",
                          JStr ("Rule " ++ dquote ++ "valueOf" ++ dquote
                                ++ " execution failed: Cannot convert undefined or null to object"));
                         ("source", JStr "valueOf") ]];
               specTitle := JStr "Pets" |}).
Proof.
  split; [reflexivity |].
  apply (inherited_member_dispatched
           sample_yaml_load sample_fns sample_typeErrorText
           "info: {title: Pets}" pets).
  reflexivity.
Defined.

(** A sequence document handed to the inherited [constructor] comes back as
    the diagnostics, whatever the registered routines do. *)
Example run_constructor_on_sequence fns typeErrorText :
  runLinter sample_yaml_load fns typeErrorText "- 1" (JArr [descriptor "constructor"])
  = ([mkCall "constructor" (JArr [JNum 1]) "- 1" (descriptor "constructor")],
     Val {| diagnostics := [JNum 1]; specTitle := JUndefined |}).
Proof. reflexivity. Qed.

(** C6 as stated fails: a routine that reports the offsets 7 and 3 on the
    empty text has them returned as they are. *)
Lemma offsets_not_enforced :
  exists calls result d,
    sample_run EmptyString (JArr [descriptor "checkOASSpec"]) = (calls, Val result)
    /\ In d (diagnostics result)
    /\ d = JObj [ ("from", JNum 7);
                  ("to", JNum 3);
                  ("severity", JStr "warning");
                  ("message", JStr "finding");
                  ("source", JStr "checkOASSpec") ]
    /\ offsetsValid EmptyString d = false.
Proof.
  eexists. eexists. eexists.
  split; [reflexivity |]. split; [left; reflexivity |].
  split; reflexivity.
Qed.

Lemma diagnostic_offsets_witness :
  sample_run "{" (JArr [descriptor "checkOASSpec"])
  = ([], Val {| diagnostics :=
                  [parserDiagnostic
                     "{" (JStr "unexpected end of the stream within a flow collection")];
                specTitle := JUndefined |})
  /\ offsetsValid
       "{" (parserDiagnostic
              "{" (JStr "unexpected end of the stream within a flow collection"))
     = true.
Proof.
  split; [reflexivity |].
  destruct (diagnostic_offsets
              sample_yaml_load sample_fns sample_typeErrorText
              "{" (JArr [descriptor "checkOASSpec"]) _ _
              (parserDiagnostic
                 "{" (JStr "unexpected end of the stream within a flow collection"))
              eq_refl (or_introl eq_refl))
    as [[_ H] | (spec & rule & f & out & Hload & _)].
  - exact H.
  - discriminate Hload.
Defined.

Lemma title_returned_unchecked_witness :
  sample_yaml_load "info: {title: 42}"
  = inl (JObj [("info", JObj [("title", JNum 42)])])
  /\ exists calls ds,
      sample_run "info: {title: 42}" (JArr [])
      = (calls, Val {| diagnostics := ds; specTitle := JNum 42 |}).
Proof.
  split; [reflexivity |].
  apply (title_returned_unchecked
           sample_yaml_load sample_fns sample_typeErrorText
           "info: {title: 42}" (JArr []) (JNum 42)).
  reflexivity.
Defined.



(** ** Text: white space *)

Lemma allChars_app p s t :
  allChars p (s ++ t) = allChars p s && allChars p t.
Proof.
  induction s as [| c s IH]; simpl; [reflexivity |].
  rewrite IH, andb_assoc. reflexivity.
Qed.

Lemma runLength_no_lead s :
  startsWithSpace s = false -> runLength isWhiteSpace s = 0.
Proof. destruct s as [| c r]; simpl; [reflexivity | intros ->; reflexivity]. Qed.

Lemma collapse_spaced s :
  forall k prev,
    singleSpaced (replaceAll (matchRun isWhiteSpace " ") k prev s) = true
    /\ (k = runLength isWhiteSpace s ->
        startsWithSpace (replaceAll (matchRun isWhiteSpace " ") k prev s) = false).
Proof.
  unfold matchRun. induction s as [| c r IH]; intros k prev.
  - simpl. split; reflexivity.
  - destruct k as [| k].
    + cbn [replaceAll runLength].
      destruct (isWhiteSpace c) eqn:Hc.
      * destruct (IH (runLength isWhiteSpace r) (Some c)) as [Hs Hn].
        cbn [Nat.pred append singleSpaced startsWithSpace].
        split; [| discriminate].
        rewrite Hs, (Hn eq_refl). reflexivity.
      * destruct (IH 0 (Some c)) as [Hs _].
        cbn [singleSpaced startsWithSpace]. rewrite Hc, Hs.
        split; [reflexivity | reflexivity].
    + cbn [replaceAll]. destruct (IH k (Some c)) as [Hs Hn].
      split; [exact Hs |].
      cbn [runLength]. destruct (isWhiteSpace c); [| discriminate].
      intros H. apply Hn. congruence.
Qed.

Lemma trimStart_spaced s :
  singleSpaced s = true -> singleSpaced (trimStart s) = true.
Proof.
  induction s as [| c r IH]; simpl; [reflexivity |].
  intros H. apply andb_true_iff in H. destruct H as [Hc Hr].
  destruct (isWhiteSpace c) eqn:Hw; [apply IH; exact Hr |].
  simpl. rewrite Hw, Hr. reflexivity.
Qed.

Lemma trimStart_no_lead s : startsWithSpace (trimStart s) = false.
Proof.
  induction s as [| c r IH]; simpl; [reflexivity |].
  destruct (isWhiteSpace c) eqn:Hw; [exact IH | simpl; exact Hw].
Qed.

Lemma trimEnd_head s :
  startsWithSpace s = false -> startsWithSpace (trimEnd s) = false.
Proof.
  destruct s as [| c r]; simpl; [reflexivity |]. intros Hc.
  destruct (trimEnd r); [rewrite Hc |]; simpl; exact Hc.
Qed.

Lemma trimEnd_head_same r c' r' :
  trimEnd r = String c' r' -> startsWithSpace r = isWhiteSpace c'.
Proof.
  destruct r as [| d r0]; simpl; [discriminate |].
  destruct (trimEnd r0).
  - destruct (isWhiteSpace d) eqn:Hd; [discriminate |].
    intros H. injection H as <- _. symmetry. exact Hd.
  - intros H. injection H as <- _. reflexivity.
Qed.

Lemma trimEnd_spaced s :
  singleSpaced s = true -> singleSpaced (trimEnd s) = true.
Proof.
  induction s as [| c r IH]; simpl; [reflexivity |].
  intros H. apply andb_true_iff in H. destruct H as [Hc Hr].
  specialize (IH Hr).
  destruct (trimEnd r) as [| c' r'] eqn:Ht.
  - destruct (isWhiteSpace c) eqn:Hw; [reflexivity |].
    simpl. rewrite Hw. reflexivity.
  - change (singleSpaced (String c (String c' r')))
      with ((if isWhiteSpace c
             then (c =? " ")%char && negb (isWhiteSpace c')
             else true)
            && singleSpaced (String c' r')).
    rewrite IH, <- (trimEnd_head_same r c' r' Ht), Hc. reflexivity.
Qed.

Lemma trimEnd_no_trail s : endsWithSpace (trimEnd s) = false.
Proof.
  induction s as [| c r IH]; simpl; [reflexivity |].
  destruct (trimEnd r) as [| c' r'] eqn:Ht.
  - destruct (isWhiteSpace c) eqn:Hw; [reflexivity | simpl; exact Hw].
  - exact IH.
Qed.

Lemma trim_collapse_normalized s :
  normalized (trim (collapseWhiteSpace s)) = true.
Proof.
  unfold normalized, trim, collapseWhiteSpace, replace_g.
  destruct (collapse_spaced s 0 None) as [Hs _].
  rewrite (trimEnd_spaced _ (trimStart_spaced _ Hs)).
  rewrite (trimEnd_head _ (trimStart_no_lead _)), trimEnd_no_trail.
  reflexivity.
Qed.

(** ** Text: what a replacement keeps *)

Lemma replaceAll_preserves q m :
  (forall prev s n r, m prev s = Some (n, r) -> allChars q r = true) ->
  forall s k prev,
    allChars q s = true -> allChars q (replaceAll m k prev s) = true.
Proof.
  intros Hm. induction s as [| c r IH]; intros k prev H; [reflexivity |].
  simpl in H. apply andb_true_iff in H. destruct H as [Hc Hr].
  destruct k as [| k]; cbn [replaceAll]; [| apply IH; exact Hr].
  destruct (m prev (String c r)) as [[n rep] |] eqn:Hmatch.
  - rewrite allChars_app, (Hm _ _ _ _ Hmatch), (IH _ _ Hr). reflexivity.
  - simpl. rewrite Hc, (IH _ _ Hr). reflexivity.
Qed.

Lemma replaceAll_run_allChars p rep q :
  allChars q rep = true ->
  (forall c, p c = false -> q c = true) ->
  forall s k prev, allChars q (replaceAll (matchRun p rep) k prev s) = true.
Proof.
  intros Hrep Hq. induction s as [| c r IH]; intros k prev; [reflexivity |].
  destruct k as [| k]; cbn [replaceAll]; [| apply IH].
  unfold matchRun. cbn [runLength]. destruct (p c) eqn:Hc.
  - rewrite allChars_app, Hrep, IH. reflexivity.
  - simpl. rewrite (Hq _ Hc), IH. reflexivity.
Qed.

Lemma replaceAll_id q m :
  (forall prev c r, q c = true -> m prev (String c r) = None) ->
  forall s prev, allChars q s = true -> replaceAll m 0 prev s = s.
Proof.
  intros Hm. induction s as [| c r IH]; intros prev H; [reflexivity |].
  simpl in H. apply andb_true_iff in H. destruct H as [Hc Hr].
  cbn [replaceAll]. rewrite (Hm _ _ _ Hc), (IH _ Hr). reflexivity.
Qed.

Lemma trimStart_allChars q s :
  allChars q s = true -> allChars q (trimStart s) = true.
Proof.
  induction s as [| c r IH]; simpl; [reflexivity |]. intros H.
  destruct (isWhiteSpace c); [| exact H].
  apply andb_true_iff in H. apply IH, H.
Qed.

Lemma trimEnd_allChars q s :
  allChars q s = true -> allChars q (trimEnd s) = true.
Proof.
  induction s as [| c r IH]; simpl; [reflexivity |]. intros H.
  apply andb_true_iff in H. destruct H as [Hc Hr]. specialize (IH Hr).
  destruct (trimEnd r) as [| c' r'].
  - destruct (isWhiteSpace c); [reflexivity |]. simpl. rewrite Hc. reflexivity.
  - cbn [allChars] in *. rewrite Hc. exact IH.
Qed.

Lemma matchRun_replacement p rep q :
  allChars q rep = true ->
  forall (prev : option ascii) s n r,
    matchRun p rep prev s = Some (n, r) -> allChars q r = true.
Proof.
  intros Hrep prev s n r. unfold matchRun.
  destruct (runLength p s); [discriminate |]. intros H. congruence.
Qed.

Lemma trim_collapse_allChars q s :
  q " "%char = true ->
  allChars q s = true -> allChars q (trim (collapseWhiteSpace s)) = true.
Proof.
  intros Hq H. unfold trim, collapseWhiteSpace, replace_g.
  apply trimEnd_allChars, trimStart_allChars.
  apply replaceAll_preserves; [| exact H].
  apply matchRun_replacement. simpl. rewrite Hq. reflexivity.
Qed.

(** ** Text: tags *)

Lemma indexOfChar_none c s :
  indexOfChar c s = None -> allChars (fun c' => negb (c' =? c)%char) s = true.
Proof.
  induction s as [| d r IH]; simpl; [reflexivity |].
  destruct (d =? c)%char; [discriminate |].
  destruct (indexOfChar c r); [discriminate |]. intros _. apply IH. reflexivity.
Qed.

Lemma matchTag_replacement (prev : option ascii) s n r q :
  matchTag prev s = Some (n, r) -> allChars q r = true.
Proof.
  unfold matchTag, matchDelimited. destruct s as [| c s]; [discriminate |].
  destruct (c =? "<")%char; [| discriminate].
  destruct (indexOfChar ">" s); [| discriminate].
  intros H. injection H as _ <-. reflexivity.
Qed.

Lemma stripTags_noTag s :
  forall k prev, noTag (replaceAll matchTag k prev s) = true.
Proof.
  induction s as [| c r IH]; intros k prev; [reflexivity |].
  destruct k as [| k]; cbn [replaceAll]; [| apply IH].
  destruct (matchTag prev (String c r)) as [[n rep] |] eqn:Hm.
  - unfold matchTag, matchDelimited in Hm.
    destruct (c =? "<")%char; [| discriminate].
    destruct (indexOfChar ">" r); [| discriminate].
    injection Hm as _ <-. simpl. apply IH.
  - cbn [noTag]. rewrite IH, andb_true_r.
    destruct (c =? "<")%char eqn:Hc; [| reflexivity].
    unfold matchTag, matchDelimited in Hm. rewrite Hc in Hm.
    destruct (indexOfChar ">" r) eqn:Hi; [discriminate |].
    apply replaceAll_preserves.
    + intros prev' s n rep. apply matchTag_replacement.
    + apply indexOfChar_none. exact Hi.
Qed.

Lemma collapse_noTag s :
  forall k prev,
    noTag s = true ->
    noTag (replaceAll (matchRun isWhiteSpace " ") k prev s) = true.
Proof.
  induction s as [| c r IH]; intros k prev H; [reflexivity |].
  cbn [noTag] in H. apply andb_true_iff in H. destruct H as [Hc Hr].
  destruct k as [| k]; cbn [replaceAll]; [| apply IH; exact Hr].
  destruct (matchRun isWhiteSpace " " prev (String c r)) as [[n rep] |] eqn:Hm.
  - unfold matchRun in Hm.
    destruct (runLength isWhiteSpace (String c r)); [discriminate |].
    injection Hm as _ <-. simpl. apply IH. exact Hr.
  - cbn [noTag]. rewrite (IH _ _ Hr), andb_true_r.
    destruct (c =? "<")%char; [| reflexivity].
    apply replaceAll_preserves; [| exact Hc].
    apply matchRun_replacement. reflexivity.
Qed.

Lemma trimStart_noTag s : noTag s = true -> noTag (trimStart s) = true.
Proof.
  induction s as [| c r IH]; simpl; [reflexivity |]. intros H.
  destruct (isWhiteSpace c); [| exact H].
  apply andb_true_iff in H. apply IH, H.
Qed.

Lemma trimEnd_noTag s : noTag s = true -> noTag (trimEnd s) = true.
Proof.
  induction s as [| c r IH]; [reflexivity |]. intros H.
  cbn [noTag] in H. apply andb_true_iff in H. destruct H as [Hc Hr].
  specialize (IH Hr). cbn [trimEnd].
  pose proof (trimEnd_allChars (fun c' => negb (c' =? ">")%char) r) as Hq.
  destruct (trimEnd r) as [| c' r'].
  - destruct (isWhiteSpace c); [reflexivity |].
    cbn [noTag allChars]. destruct (c =? "<")%char; reflexivity.
  - cbn [noTag] in *. rewrite IH, andb_true_r.
    destruct (c =? "<")%char; [| reflexivity]. apply Hq. exact Hc.
Qed.

Lemma matchLiteral_needs_head pat0 pat rep (prev : option ascii) c r :
  (c =? pat0)%char = false ->
  matchLiteral (String pat0 pat) rep prev (String c r) = None.
Proof.
  intros H. unfold matchLiteral. cbn [prefix].
  destruct (ascii_dec pat0 c) as [-> | _]; [| reflexivity].
  rewrite Ascii.eqb_refl in H. discriminate.
Qed.

Lemma entity_free_keeps (pat rep s : string) :
  allChars (fun c => negb (c =? "&")%char) s = true ->
  replace_g (matchLiteral (String "&" pat) rep) s = s.
Proof.
  intros H. unfold replace_g.
  apply (replaceAll_id (fun c => negb (c =? "&")%char)); [| exact H].
  intros prev c r Hc. apply matchLiteral_needs_head.
  apply negb_true_iff. exact Hc.
Qed.

Lemma stripHtml_entity_free h :
  allChars (fun c => negb (c =? "&")%char) h = true ->
  stripHtml h = trim (collapseWhiteSpace (replace_g matchTag h)).
Proof.
  intros H. unfold stripHtml.
  assert (Hs : allChars (fun c => negb (c =? "&")%char) (replace_g matchTag h) = true).
  { unfold replace_g. apply replaceAll_preserves; [| exact H].
    intros prev s n r. apply matchTag_replacement. }
  cbv zeta. rewrite !(entity_free_keeps _ _ _ Hs). reflexivity.
Qed.

(** ** The properties of [convertMarkdownToPlainText] *)

(** X9 (normal form).  Whatever the library and the DOM answer, on every
    path, the result has no white space at either end, and every white-space
    code unit in it is a single space between two other code units. *)
Theorem plain_text_normalized
        (marked : string -> Completion MarkedOutput) (document : option Dom)
        (markdown : option string) :
  normalized (convertMarkdownToPlainText marked document markdown) = true.
Proof.
  unfold convertMarkdownToPlainText, stripHtml, stripMarkdown.
  destruct (marked _) as [html | e]; [destruct document |];
    apply trim_collapse_normalized.
Qed.

(** X10 (fallback).  When the library throws, the result of the fallback
    holds none of the code units [>], [*], [_], [~] and [-]. *)
Theorem fallback_has_no_marker
        (marked : string -> Completion MarkedOutput) (document : option Dom)
        (markdown : option string) (e : JValue) :
  marked (match markdown with
          | Some s => s
          | None => EmptyString
          end) = Exn e ->
  allChars (fun c => negb (isMarker c))
           (convertMarkdownToPlainText marked document markdown) = true.
Proof.
  intros H. unfold convertMarkdownToPlainText. rewrite H.
  unfold stripMarkdown. cbv zeta.
  apply trim_collapse_allChars; [reflexivity |].
  unfold replace_g. apply replaceAll_run_allChars; [reflexivity |].
  intros c Hc. rewrite Hc. reflexivity.
Qed.

(** X11 (tags).  On the server path, when the HTML that the library
    returns holds no [&], the result holds no tag: no [<] in it has a [>]
    anywhere after it. *)
Theorem server_text_has_no_tag
        (marked : string -> Completion MarkedOutput)
        (markdown : option string) (h : string) :
  marked (match markdown with
          | Some s => s
          | None => EmptyString
          end) = Val (HtmlText h) ->
  allChars (fun c => negb (c =? "&")%char) h = true ->
  noTag (convertMarkdownToPlainText marked None markdown) = true.
Proof.
  intros Hm Hh. unfold convertMarkdownToPlainText. rewrite Hm.
  rewrite (stripHtml_entity_free _ Hh). unfold trim, collapseWhiteSpace.
  apply trimEnd_noTag, trimStart_noTag. unfold replace_g at 1.
  apply collapse_noTag. apply stripTags_noTag.
Qed.

Example entities_decoded_twice : stripHtml "&amp;lt;b&amp;gt;" = "<b>".
Proof. reflexivity. Qed.

Example markdown_stripped :
  stripMarkdown ("# Title" ++ newline ++ "Some **bold** `code` [link](http://x.y)")
  = "Title Some bold link".
Proof. reflexivity. Qed.

Example header_needs_line_start :
  stripMarkdown ("    # deep" ++ newline ++ "   ## h2" ++ newline ++ "####### seven")
  = "# deep h2 ####### seven".
Proof. reflexivity. Qed.

(** ** The properties of [fetchRepoMap] and [fetchSpecFromGitea] *)

Section FetchProperties.

Variable fetch : string -> Completion Response.
Variable yaml_load : string -> JValue + string.
Variable typeErrorText : string -> string.

Lemma find_result cb l x :
  find cb l = Val x ->
  (cb x = Val true
   /\ exists before after,
       l = (before ++ x :: after)%list
       /\ Forall (fun e => cb e = Val false) before)
  \/ (x = JUndefined /\ Forall (fun e => cb e = Val false) l).
Proof.
  induction l as [| y l IH]; simpl.
  - intros H. injection H as <-. right. split; [reflexivity | constructor].
  - destruct (cb y) as [[|] | e] eqn:Hy; [| | discriminate].
    + intros H. injection H as <-. left. split; [exact Hy |].
      exists [], l. split; [reflexivity | constructor].
    + intros H. destruct (IH H) as [[Hx (before & after & -> & Hb)] | [-> Hall]].
      * left. split; [exact Hx |].
        exists (y :: before), after. split; [reflexivity |].
        constructor; assumption.
      * right. split; [reflexivity |]. constructor; assumption.
Qed.

Lemma includes_true keys x :
  includes keys x = true -> exists t, x = JStr t /\ In t keys.
Proof.
  destruct x; simpl; try discriminate. intros H.
  apply existsb_exists in H. destruct H as (k & Hk & Heq).
  apply String.eqb_eq in Heq. subst k. eauto.
Qed.

Lemma includes_false keys t : includes keys (JStr t) = false -> ~ In t keys.
Proof.
  simpl. intros H Hin.
  assert (existsb (String.eqb t) keys = true) as Ht.
  { apply existsb_exists. exists t. split; [exact Hin | apply String.eqb_refl]. }
  congruence.
Qed.

Lemma entryHasTitle_true spec x :
  entryHasTitle typeErrorText spec x = Val true ->
  exists keys t,
    objectKeys typeErrorText x = Val keys
    /\ readField (readField spec f_info) f_title = JStr t
    /\ In t keys.
Proof.
  unfold entryHasTitle, andThen, member.
  destruct (objectKeys typeErrorText x) as [keys | e]; [| discriminate].
  destruct (isNullish spec); [discriminate |].
  destruct (isNullish (readField spec f_info)); [discriminate |].
  intros H. injection H as H. apply includes_true in H.
  destruct H as (t & Ht & Hin). eauto.
Qed.

Lemma entryHasTitle_false spec x t :
  entryHasTitle typeErrorText spec x = Val false ->
  readField (readField spec f_info) f_title = JStr t ->
  exists keys, objectKeys typeErrorText x = Val keys /\ ~ In t keys.
Proof.
  unfold entryHasTitle, andThen, member.
  destruct (objectKeys typeErrorText x) as [keys | e]; [| discriminate].
  destruct (isNullish spec); [discriminate |].
  destruct (isNullish (readField spec f_info)); [discriminate |].
  intros H Ht. injection H as H. rewrite Ht in H.
  exists keys. split; [reflexivity | apply includes_false; exact H].
Qed.

(** X12 (first match).  A result of [fetchRepoMap] other than [null] is an
    element of [parsed.services] that has the title of the specification, a
    string, among its keys; no element before it has that key; and nothing
    has gone to the console. *)
Theorem repo_map_first_match (spec v : JValue) :
  snd (fetchRepoMap fetch yaml_load typeErrorText spec) = v ->
  v <> JNull ->
  fst (fetchRepoMap fetch yaml_load typeErrorText spec) = []
  /\ exists response txt parsed before after t keys,
      fetch "/gitea/repositories.yaml" = Val response
      /\ text response = Val txt
      /\ yaml_load txt = inl parsed
      /\ readField parsed f_services = JArr (before ++ v :: after)
      /\ readField (readField spec f_info) f_title = JStr t
      /\ objectKeys typeErrorText v = Val keys
      /\ In t keys
      /\ Forall (fun e => exists ks,
                     objectKeys typeErrorText e = Val ks /\ ~ In t ks) before.
Proof.
  unfold fetchRepoMap, andThen, loadYaml, member.
  destruct (fetch "/gitea/repositories.yaml") as [response | e] eqn:Hfetch;
    simpl; [| congruence].
  destruct (text response) as [txt | e] eqn:Htext; simpl; [| congruence].
  destruct (yaml_load txt) as [parsed | m] eqn:Hyaml; simpl; [| congruence].
  destruct (isNullish parsed); simpl; [congruence |].
  destruct (readField parsed f_services) as [| | | | | l | | |] eqn:Hs; simpl;
    try congruence.
  destruct (find (entryHasTitle typeErrorText spec) l) as [x | e] eqn:Hfind;
    simpl; [| congruence].
  intros Hv Hnull. split; [reflexivity |].
  destruct (find_result _ _ _ Hfind)
    as [[Hx (before & after & -> & Hb)] | [-> _]]; [| simpl in Hv; congruence].
  destruct (entryHasTitle_true _ _ Hx) as (keys & t & Hk & Ht & Hin).
  assert (x = v) as ->.
  { destruct x; simpl in Hv; try exact Hv; simpl in Hk; discriminate. }
  exists response, txt, parsed, before, after, t, keys.
  repeat (split; [first [reflexivity | assumption] |]).
  apply Forall_forall. intros e0 He0.
  rewrite Forall_forall in Hb.
  apply (entryHasTitle_false _ _ _ (Hb _ He0) Ht).
Qed.

(** X13 (the title is read per entry).  With an empty [services] list
    the result is [null] and nothing goes to the console, whatever [spec]
    is; with a first entry that is an object, a [spec] that is [null] or
    [undefined] or has no [info] makes the call end in the [catch]: [null],
    and one error on the console. *)
Theorem repo_map_title_read_per_entry
        (spec : JValue) (response : Response) (txt : string)
        (parsed : JValue) (l : list JValue) :
  fetch "/gitea/repositories.yaml" = Val response ->
  text response = Val txt ->
  yaml_load txt = inl parsed ->
  readField parsed f_services = JArr l ->
  (l = [] -> fetchRepoMap fetch yaml_load typeErrorText spec = ([], JNull))
  /\ (forall entry rest,
         l = entry :: rest ->
         isNullish entry = false ->
         isNullish spec = true \/ isNullish (readField spec f_info) = true ->
         exists e,
           fetchRepoMap fetch yaml_load typeErrorText spec =
           ([("Failed to load repositories.yaml:", e)], JNull)).
Proof.
  intros Hf Ht Hy Hs.
  assert (isNullish parsed = false) as Hp.
  { destruct parsed; try reflexivity; discriminate. }
  unfold fetchRepoMap, andThen, loadYaml, member.
  rewrite Hf, Ht, Hy, Hp, Hs. split.
  - intros ->. reflexivity.
  - intros entry rest -> He Hspec. cbn [find].
    unfold entryHasTitle, andThen, member.
    assert (exists keys, objectKeys typeErrorText entry = Val keys) as [keys ->].
    { destruct entry as [| | | | | | | | p]; simpl in *; try discriminate; eauto.
      destruct p; eauto. }
    destruct Hspec as [H | H].
    + rewrite H. eauto.
    + destruct (isNullish spec); [eauto |]. rewrite H. eauto.
Qed.

(** X14 (failures).  When the request is rejected, or reading the body
    is rejected, or the YAML loader throws, [fetchRepoMap] is fulfilled
    with [null] and that one error has gone to the console. *)
Theorem repo_map_failure (spec e : JValue) :
  fetch "/gitea/repositories.yaml" = Exn e
  \/ (exists response,
         fetch "/gitea/repositories.yaml" = Val response
         /\ text response = Exn e)
  \/ (exists response txt m,
         fetch "/gitea/repositories.yaml" = Val response
         /\ text response = Val txt
         /\ yaml_load txt = inr m
         /\ e = JErr "YAMLException" m) ->
  fetchRepoMap fetch yaml_load typeErrorText spec =
  ([("Failed to load repositories.yaml:", e)], JNull).
Proof.
  unfold fetchRepoMap, andThen, loadYaml.
  intros [H | [(response & Hf & Ht) | (response & txt & m & Hf & Ht & Hy & ->)]].
  - rewrite H. reflexivity.
  - rewrite Hf, Ht. reflexivity.
  - rewrite Hf, Ht, Hy. reflexivity.
Qed.

(** X15 (what [fetchSpecFromGitea] returns).  Either nothing has gone to
    the console and the result is [data.yaml] of a response whose [ok] is
    true, or the result is [null] and exactly one error has gone to the
    console. *)
Theorem gitea_result_origin (repo path : string) (log : Console) (v : JValue) :
  fetchSpecFromGitea fetch typeErrorText repo path = (log, v) ->
  (log = []
   /\ exists response data,
       fetch ("/api/gitea?repo=" ++ repo ++ "&path=" ++ path) = Val response
       /\ ok response = true
       /\ json response = Val data
       /\ isNullish data = false
       /\ v = readField data f_yaml)
  \/ (v = JNull
      /\ exists e, log = [("Failed to fetch spec YAML from gitea portal:", e)]).
Proof.
  unfold fetchSpecFromGitea, andThen, member.
  destruct (fetch _) as [response | e] eqn:Hf; simpl.
  - destruct (json response) as [data | e] eqn:Hj; simpl.
    + destruct (ok response) eqn:Hok; simpl.
      * destruct (isNullish data) eqn:Hd; intros H; injection H as <- <-.
        -- right. eauto.
        -- left. split; [reflexivity |]. exists response, data. auto.
      * destruct (isNullish data); intros H; injection H as <- <-; right; eauto.
    + intros H. injection H as <- <-. right. eauto.
  - intros H. injection H as <- <-. right. eauto.
Qed.


End FetchProperties.

(** ** The further statements at the sample environments *)

Lemma no_selection_no_run_witness :
  sample_yaml_load "info: {title: Pets}" = inl pets
  /\ sample_run "info: {title: Pets}" (JStr "all")
     = ([], Val {| diagnostics := []; specTitle := JStr "Pets" |}).
Proof.
  split; [reflexivity |].
  apply (no_selection_no_run
           sample_yaml_load sample_fns sample_typeErrorText
           "info: {title: Pets}" pets (JStr "all"));
    [reflexivity | left; reflexivity].
Defined.





Lemma title_independent_of_rules_witness :
  sample_yaml_load "info: {title: Pets}" = inl pets
  /\ exists calls ds,
      sample_run "info: {title: Pets}" (JArr [descriptor "checkCRUD"])
      = (calls, Val {| diagnostics := ds; specTitle := JStr "Pets" |}).
Proof.
  split; [reflexivity |].
  apply (title_independent_of_rules
           sample_yaml_load sample_fns sample_typeErrorText
           "info: {title: Pets}" pets (JArr [descriptor "checkCRUD"])).
  reflexivity.
Defined.


Lemma fallback_has_no_marker_witness :
  convertMarkdownToPlainText failing_marked None (Some "# A - *b* ~c~ > d_e")
  = "A b c d e"
  /\ allChars (fun c => negb (isMarker c))
              (convertMarkdownToPlainText failing_marked None
                                          (Some "# A - *b* ~c~ > d_e"))
     = true.
Proof.
  split; [reflexivity |].
  apply (fallback_has_no_marker
           failing_marked None (Some "# A - *b* ~c~ > d_e")
           (JErr "TypeError" "marked is not a function")).
  reflexivity.
Defined.

Lemma server_text_has_no_tag_witness :
  convertMarkdownToPlainText sample_marked None (Some "1 < 2 and <b>bold</b>")
  = "1 bold"
  /\ noTag (convertMarkdownToPlainText sample_marked None
                                       (Some "1 < 2 and <b>bold</b>"))
     = true.
Proof.
  split; [reflexivity |].
  apply (server_text_has_no_tag
           sample_marked (Some "1 < 2 and <b>bold</b>")
           ("<p>1 < 2 and <b>bold</b></p>" ++ newline));
    reflexivity.
Defined.

Lemma repo_map_first_match_witness :
  fetchRepoMap sample_fetch sample_repo_yaml_load sample_typeErrorText pets
  = ([], JObj [("Pets", JStr "pets-repo"); ("Petstore", JStr "pets-repo")])
  /\ exists t keys,
      readField (readField pets f_info) f_title = JStr t
      /\ objectKeys sample_typeErrorText
                    (JObj [("Pets", JStr "pets-repo");
                           ("Petstore", JStr "pets-repo")])
         = Val keys
      /\ In t keys.
Proof.
  split; [reflexivity |].
  destruct (repo_map_first_match
              sample_fetch sample_repo_yaml_load sample_typeErrorText pets
              (JObj [("Pets", JStr "pets-repo"); ("Petstore", JStr "pets-repo")])
              eq_refl)
    as (_ & response & txt & parsed & before & after & t & keys
        & Hf & Ht & Hy & Hs & Htitle & Hk & Hin & Hb).
  - discriminate.
  - exists t, keys. auto.
Defined.

Lemma repo_map_title_read_per_entry_witness :
  fetchRepoMap sample_fetch empty_repo_yaml_load sample_typeErrorText JUndefined
  = ([], JNull)
  /\ exists e,
      fetchRepoMap sample_fetch sample_repo_yaml_load sample_typeErrorText
                   JUndefined
      = ([("Failed to load repositories.yaml:", e)], JNull).
Proof.
  split.
  - apply (proj1 (repo_map_title_read_per_entry
                    sample_fetch empty_repo_yaml_load sample_typeErrorText
                    JUndefined
                    {| ok := true;
                       json := Exn (JErr "SyntaxError" "Unexpected token s in JSON");
                       text := Val sample_repositories |}
                    sample_repositories
                    (JObj [("services", JArr [])]) []
                    eq_refl eq_refl eq_refl eq_refl)).
    reflexivity.
  - apply (proj2 (repo_map_title_read_per_entry
                    sample_fetch sample_repo_yaml_load sample_typeErrorText
                    JUndefined
                    {| ok := true;
                       json := Exn (JErr "SyntaxError" "Unexpected token s in JSON");
                       text := Val sample_repositories |}
                    sample_repositories
                    (JObj [("services",
                            JArr [JObj [("Books", JStr "books-repo")];
                                  JObj [("Pets", JStr "pets-repo");
                                        ("Petstore", JStr "pets-repo")]])])
                    [JObj [("Books", JStr "books-repo")];
                     JObj [("Pets", JStr "pets-repo");
                           ("Petstore", JStr "pets-repo")]]
                    eq_refl eq_refl eq_refl eq_refl)
                 (JObj [("Books", JStr "books-repo")])
                 [JObj [("Pets", JStr "pets-repo");
                        ("Petstore", JStr "pets-repo")]]);
      [reflexivity | reflexivity | left; reflexivity].
Defined.

Lemma repo_map_failure_witness :
  offline_fetch "/gitea/repositories.yaml"
  = Exn (JErr "TypeError" "Failed to fetch")
  /\ fetchRepoMap offline_fetch sample_repo_yaml_load sample_typeErrorText pets
     = ([("Failed to load repositories.yaml:", JErr "TypeError" "Failed to fetch")],
        JNull).
Proof.
  split; [reflexivity |].
  apply (repo_map_failure
           offline_fetch sample_repo_yaml_load sample_typeErrorText
           pets (JErr "TypeError" "Failed to fetch")).
  left. reflexivity.
Defined.

Lemma gitea_result_origin_witness :
  fetchSpecFromGitea sample_fetch sample_typeErrorText "pets-repo" "openapi.yaml"
  = ([], JStr "openapi: 3.0.0")
  /\ exists response data,
      sample_fetch "/api/gitea?repo=pets-repo&path=openapi.yaml" = Val response
      /\ ok response = true
      /\ json response = Val data
      /\ JStr "openapi: 3.0.0" = readField data f_yaml.
Proof.
  split; [reflexivity |].
  destruct (gitea_result_origin
              sample_fetch sample_typeErrorText "pets-repo" "openapi.yaml"
              [] (JStr "openapi: 3.0.0") eq_refl)
    as [(_ & response & data & Hf & Hok & Hj & _ & Hv) | (Hnull & _)].
  - exists response, data. auto.
  - discriminate Hnull.
Defined.


(** ** Text that is already in normal form *)

Lemma collapse_id s :
  singleSpaced s = true ->
  forall prev, replaceAll (matchRun isWhiteSpace " ") 0 prev s = s.
Proof.
  unfold matchRun. induction s as [| c r IH]; intros H prev; [reflexivity |].
  cbn [singleSpaced] in H. apply andb_true_iff in H. destruct H as [Hc Hr].
  cbn [replaceAll runLength]. destruct (isWhiteSpace c).
  - apply andb_true_iff in Hc. destruct Hc as [Heq Hlead].
    apply Ascii.eqb_eq in Heq. apply negb_true_iff in Hlead.
    rewrite (runLength_no_lead _ Hlead). cbn [Nat.pred append].
    rewrite (IH Hr). subst c. reflexivity.
  - rewrite (IH Hr). reflexivity.
Qed.

Lemma trimStart_id s : startsWithSpace s = false -> trimStart s = s.
Proof. destruct s as [| c r]; simpl; [reflexivity | intros ->; reflexivity]. Qed.

Lemma trimEnd_id s : endsWithSpace s = false -> trimEnd s = s.
Proof.
  induction s as [| c r IH]; [reflexivity |].
  destruct r as [| d r'].
  - simpl. intros ->. reflexivity.
  - intros H. change (endsWithSpace (String d r') = false) in H.
    change (trimEnd (String c (String d r')))
      with (match trimEnd (String d r') with
            | EmptyString =>
                if isWhiteSpace c then EmptyString else String c EmptyString
            | String c' rest' => String c (String c' rest')
            end).
    rewrite (IH H). reflexivity.
Qed.

Lemma normalized_fixpoint s :
  normalized s = true -> trim (collapseWhiteSpace s) = s.
Proof.
  unfold normalized. intros H.
  apply andb_true_iff in H. destruct H as [H Hend].
  apply andb_true_iff in H. destruct H as [Hs Hlead].
  apply negb_true_iff in Hend. apply negb_true_iff in Hlead.
  unfold trim, collapseWhiteSpace, replace_g.
  rewrite (collapse_id _ Hs), (trimStart_id _ Hlead), (trimEnd_id _ Hend).
  reflexivity.
Qed.

(** X17 (browser path).  In a browser, when the [textContent] of the
    rendered HTML is not empty and is already in normal form, it is the
    result, unchanged. *)
Theorem browser_text_kept
        (marked : string -> Completion MarkedOutput) (dom : Dom)
        (markdown : option string) (h : string) :
  marked (match markdown with
          | Some s => s
          | None => EmptyString
          end) = Val (HtmlText h) ->
  textContent dom h <> EmptyString ->
  normalized (textContent dom h) = true ->
  convertMarkdownToPlainText marked (Some dom) markdown = textContent dom h.
Proof.
  intros Hm Hne Hn. unfold convertMarkdownToPlainText. rewrite Hm.
  destruct (textContent dom h) eqn:Ht; [congruence |].
  cbn [orElse]. apply normalized_fixpoint. exact Hn.
Qed.

Lemma browser_text_kept_witness :
  convertMarkdownToPlainText
    sample_marked
    (Some {| textContent := fun _ => "Hello world"; innerText := fun _ => "x" |})
    (Some "Hello **world**")
  = "Hello world".
Proof.
  apply (browser_text_kept
           sample_marked
           {| textContent := fun _ => "Hello world"; innerText := fun _ => "x" |}
           (Some "Hello **world**")
           ("<p>Hello **world**</p>" ++ newline));
    [reflexivity | discriminate | reflexivity].
Defined.
